(** * A shallow embedding of textual's application core and dock layout

    Sources: [src/textual/app.py] (class [App]) and
    [src/textual/layouts/dock.py] (class [DockLayout]).
    Python ints are modelled as [Z], dicts as stdpp [gmap]s, lists as
    lists, and object attributes that the layout engine reads as a store
    of widget records indexed by widget identity. *)

From stdpp Require Import base gmap list strings.
From Stdlib Require Import ZArith Ascii String Lia.

Open Scope Z_scope.

(* ------------------------------------------------------------------ *)
(** ** Geometry (textual.geometry is not under src) *)

Module Geometry.

Record Point := mkPoint { px : Z; py : Z }.

Record Region := mkRegion { rx : Z; ry : Z; rwidth : Z; rheight : Z }.

(** [Region.__bool__] of textual's geometry.py (not under src):
    [bool(self.width and self.height)], so a region is falsy exactly when
    one of its sides is 0; a region with a negative side is truthy. *)
Definition region_truthy (r : Region) : bool :=
  negb (rwidth r =? 0) && negb (rheight r =? 0).

(** Modelled from the spec: [Region.__add__(Point)] translates the
    rectangle by the point ("apply the recursive offset and the node's own
    positional override on top of the computed rectangle"). *)
Definition region_add (r : Region) (p : Point) : Region :=
  mkRegion (rx r + px p) (ry r + py p) (rwidth r) (rheight r).

(** [Region.origin] *)
Definition origin (r : Region) : Point := mkPoint (rx r) (ry r).

End Geometry.

(* ------------------------------------------------------------------ *)
(** ** dock.py *)

Module DockLayout.
Import Geometry.

(** [DockEdge = Literal["top", "right", "bottom", "left"]] *)
Inductive DockEdge := Top | Right | Bottom | Left.

(** Widgets are referred to by identity. *)
Abbreviation WidgetId := nat (only parsing).

(** [@dataclass class Dock: edge; widgets; z = 0] *)
Record Dock := mkDock { edge : DockEdge; widgets : list WidgetId; z : Z }.

(** [@dataclass class DockOptions: size = None; fraction = 1; minimum_size = 1] *)
Record DockOptions := mkDockOptions {
  do_size : option Z; do_fraction : Z; do_minimum_size : Z }.

(** [MapRegion(region, order)] from textual.layout. *)
Record MapRegion := mkMapRegion { mr_region : Region; mr_order : Z * Z }.

(** The attributes of a widget that [generate_map] reads. [layout] is
    [Some docks] when the widget is a [View] (whose [layout] is a
    [DockLayout] with these docks) and [None] otherwise. *)
Record Widget := mkWidget {
  visible : bool;
  layout_size : option Z;
  layout_fraction : Z;
  layout_minimim_size : Z;
  layout_offset : Point;
  layout : option (list Dock) }.

(** The object store: every widget identity denotes a widget object. *)
Definition Heap := WidgetId -> Widget.

(** A state monad over the store, failing ([None]) only when the recursion
    fuel runs out (a cyclic view nesting, on which Python recurses forever). *)
Definition M (A : Type) : Type := Heap -> option (A * Heap).

Global Instance M_ret : MRet M := fun A x h => Some (x, h).
Global Instance M_bind : MBind M := fun A B f m h =>
  match m h with Some (x, h') => f x h' | None => None end.

Definition get_widget (w : WidgetId) : M Widget := fun h => Some (h w, h).
Definition get_heap : M Heap := fun h => Some (h, h).
Definition out_of_fuel {A} : M A := fun _ => None.

Fixpoint mapM {A B} (f : A -> M B) (l : list A) : M (list B) :=
  match l with
  | [] => mret []
  | a :: l' => b ← f a; bs ← mapM f l'; mret (b :: bs)
  end.

(** The result of [generate_map]: [dict[Widget, MapRegion]]. *)
Abbreviation LayoutMap := (gmap WidgetId MapRegion).

(** [ratio_resolve] is rich's [rich._ratio.ratio_resolve], an external
    library function: it is a parameter of the whole layout engine. *)
Section Layout.
Variable ratio_resolve : Z -> list DockOptions -> list Z.

(** The state of the placement loop of one dock:
    [render_y] (or [render_x]), [remaining] and [total]. *)
Record LoopState := mkLoopState { render : Z; remaining : Z; total : Z }.

(** Where a placed widget goes, and how the render cursor moves, for each
    of the four edge branches of [generate_map]:
    - top:    [Region(x, render_y, width, size)],        [render_y += size]
    - bottom: [Region(x, render_y - size, width, size)], [render_y -= size]
    - left:   [Region(render_x, y, size, height)],       [render_x += size]
    - right:  [Region(render_x - size, y, size, height)],[render_x -= size] *)
Definition place (e : DockEdge) (x y width height cur size : Z) : Region * Z :=
  match e with
  | Top => (mkRegion x cur width size, cur + size)
  | Bottom => (mkRegion x (cur - size) width size, cur - size)
  | Left => (mkRegion cur y size height, cur + size)
  | Right => (mkRegion (cur - size) y size height, cur - size)
  end.

(** The initial cursor and [remaining] of each branch. *)
Definition loop_init (e : DockEdge) (r : Region) : LoopState :=
  match e with
  | Top => mkLoopState (ry r) (rheight r) 0
  | Bottom => mkLoopState (ry r + rheight r) (rheight r) 0
  | Left => mkLoopState (rx r) (rwidth r) 0
  | Right => mkLoopState (rx r + rwidth r) (rwidth r) 0
  end.

(** The axis extent handed to [ratio_resolve]. *)
Definition axis_extent (e : DockEdge) (r : Region) : Z :=
  match e with Top | Bottom => rheight r | Left | Right => rwidth r end.

(** The loop [for widget, size in zip(dock.widgets, sizes): ...] of each
    branch. It returns the placed [(widget, region)] pairs in order (each one
    is then handed to [add_widget]) and the final loop state; the [break]
    returns at once. [add_widget] writes only to the local [map], which the
    loop never reads, so placing first and adding afterwards is the same. *)
Fixpoint dock_loop (e : DockEdge) (x y width height : Z) (vis : WidgetId -> bool)
    (st : LoopState) (items : list (WidgetId * Z))
    : list (WidgetId * Region) * LoopState :=
  match items with
  | [] => ([], st)
  | (w, size0) :: rest =>
      if negb (vis w) then dock_loop e x y width height vis st rest  (* continue *)
      else
        let size := Z.min (remaining st) size0 in
        if size =? 0 then ([], st)                                     (* break *)
        else
          let '(reg, cur) := place e x y width height (render st) size in
          let st' := mkLoopState cur (Z.max 0 (remaining st - size))
                                 (total st + size) in
          let '(placed, stf) := dock_loop e x y width height vis st' rest in
          ((w, reg) :: placed, stf)
  end.

(** The region left to the layer after the dock, per branch. *)
Definition shrink (e : DockEdge) (r : Region) (t : Z) : Region :=
  match e with
  | Top => mkRegion (rx r) (ry r + t) (rwidth r) (rheight r - t)
  | Bottom => mkRegion (rx r) (ry r) (rwidth r) (rheight r - t)
  | Left => mkRegion (rx r + t) (ry r) (rwidth r - t) (rheight r)
  | Right => mkRegion (rx r) (ry r) (rwidth r - t) (rheight r)
  end.

(** [layers[z]] on [defaultdict(lambda: layout_region)]. *)
Definition layer_get (layout_region : Region) (layers : gmap Z Region) (k : Z) : Region :=
  default layout_region (layers !! k).

(** One iteration of [for index, dock in enumerate(self.docks)], without
    the calls to [add_widget]: the placements of the dock and the new
    [layers] ([None] for placements when the dock is skipped by
    [continue]). Reading [layers[dock.z]] inserts the default. *)
Definition dock_core (vis : WidgetId -> bool) (opts : list DockOptions)
    (layout_region : Region) (layers : gmap Z Region) (dock : Dock)
    : option (list (WidgetId * Region)) * gmap Z Region :=
  let region := layer_get layout_region layers (z dock) in
  let layers := <[z dock := region]> layers in
  if negb (region_truthy region) then (None, layers)
  else
    let sizes := ratio_resolve (axis_extent (edge dock) region) opts in
    let '(placed, st) :=
      dock_loop (edge dock) (rx region) (ry region) (rwidth region) (rheight region)
                vis (loop_init (edge dock) region) (combine (widgets dock) sizes) in
    (Some placed, <[z dock := shrink (edge dock) region (total st)]> layers).

Section GenerateMap.
(** The recursive call [widget.layout.generate_map(w, h, offset=...)]. *)
Variable recur : list Dock -> Z -> Z -> Point -> M LayoutMap.
Variable offset : Point.

(** The nested [add_widget(widget, region, order)] of [generate_map]. *)
Definition add_widget (map : LayoutMap) (w : WidgetId) (region : Region)
    (order : Z * Z) : M LayoutMap :=
  wr ← get_widget w;
  let region := region_add (region_add region offset) (layout_offset wr) in
  let map := <[w := mkMapRegion region order]> map in
  match layout wr with
  | Some sub_docks =>                                  (* isinstance(widget, View) *)
      sub_map ← recur sub_docks (rwidth region) (rheight region) (origin region);
      mret (sub_map ∪ map)                             (* map.update(sub_map) *)
  | None => mret map
  end.

Fixpoint add_all (map : LayoutMap) (placed : list (WidgetId * Region))
    (order : Z * Z) : M LayoutMap :=
  match placed with
  | [] => mret map
  | (w, r) :: placed' => map ← add_widget map w r order; add_all map placed' order
  end.

(** [DockOptions(widget.layout_size, widget.layout_fraction,
    widget.layout_minimim_size)] *)
Definition dock_options_of (w : WidgetId) : M DockOptions :=
  wr ← get_widget w;
  mret (mkDockOptions (layout_size wr) (layout_fraction wr) (layout_minimim_size wr)).

(** [for index, dock in enumerate(self.docks): ...] *)
Fixpoint layout_docks (layout_region : Region) (index : Z) (ds : list Dock)
    (map : LayoutMap) (layers : gmap Z Region) : M LayoutMap :=
  match ds with
  | [] => mret map
  | dock :: ds' =>
      opts ← mapM dock_options_of (widgets dock);
      h ← get_heap;
      let '(res, layers) :=
        dock_core (fun w => visible (h w)) opts layout_region layers dock in
      match res with
      | None => layout_docks layout_region (index + 1) ds' map layers  (* continue *)
      | Some placed =>
          map ← add_all map placed (z dock, index);
          layout_docks layout_region (index + 1) ds' map layers
      end
  end.

End GenerateMap.

(** [DockLayout.generate_map(width, height, offset)]: [map] and [layers]
    start empty. *)
Fixpoint generate_map (fuel : nat) (docks : list Dock) (width height : Z)
    (offset : Point) : M LayoutMap :=
  match fuel with
  | O => out_of_fuel
  | S fuel' =>
      layout_docks (generate_map fuel') offset (mkRegion 0 0 width height) 0 docks ∅ ∅
  end.

End Layout.

(** The extent a dock consumed along its axis: the sum of the sizes of the
    regions it placed. *)
Definition consumed (e : DockEdge) (placed : list (WidgetId * Region)) : Z :=
  fold_right Z.add 0 (map (fun p => axis_extent e p.2) placed).

End DockLayout.

(* ------------------------------------------------------------------ *)
(** ** app.py *)

Module App.

(** A widget as the orchestrator sees it: its identity and [can_focus]. *)
Record AWidget := mkAWidget { wid : nat; can_focus : bool }.

Global Instance AWidget_eq_dec : EqDecision AWidget.
Proof. intros [a b] [c d]. destruct (decide (a = c)), (decide (b = d)); subst;
  [left; reflexivity | right; congruence | right; congruence | right; congruence].
Defined.

(** Views are referred to by identity. *)
Abbreviation ViewId := nat (only parsing).

(** The receivers of messages. *)
Inductive Node := NWidget (w : AWidget) | NView (v : ViewId).

(** The event vocabulary of [textual.events]. *)
Inductive Event :=
  | Key (key : string)
  | MouseMove | MouseDown | MouseUp | MouseScrollUp | MouseScrollDown
  | Resize | Load | Startup | ShutdownRequest | Created
  | Enter | Leave | Focus | Blur.

(** Modelled from the spec: the class hierarchy of [events.py] (not in src):
    [Key] and the pointer events are [InputEvent]s ("Non-key pointer events
    bypass binding lookup and are forwarded directly to the active view"),
    the others are not. *)
Definition is_input_event (e : Event) : bool :=
  match e with
  | Key _ | MouseMove | MouseDown | MouseUp | MouseScrollUp | MouseScrollDown => true
  | _ => false
  end.

(** [keys.Binding(action, description)] *)
Record Binding := mkBinding { b_action : string; b_description : string }.

(** The orchestrator state that the claims read: [_view_stack], [children],
    [focused], [mouse_over], [mouse_captured] and [_bindings]. *)
Record AppState := mkAppState {
  view_stack : list ViewId;
  children : gset ViewId;
  focused : option AWidget;
  mouse_over : option AWidget;
  mouse_captured : option AWidget;
  bindings : gmap string Binding }.

Definition set_view_stack (st : AppState) (s : list ViewId) : AppState :=
  mkAppState s (children st) (focused st) (mouse_over st) (mouse_captured st) (bindings st).
Definition set_children (st : AppState) (c : gset ViewId) : AppState :=
  mkAppState (view_stack st) c (focused st) (mouse_over st) (mouse_captured st) (bindings st).
Definition set_focused (st : AppState) (f : option AWidget) : AppState :=
  mkAppState (view_stack st) (children st) f (mouse_over st) (mouse_captured st) (bindings st).
Definition set_mouse_over_field (st : AppState) (m : option AWidget) : AppState :=
  mkAppState (view_stack st) (children st) (focused st) m (mouse_captured st) (bindings st).
Definition set_mouse_captured (st : AppState) (m : option AWidget) : AppState :=
  mkAppState (view_stack st) (children st) (focused st) (mouse_over st) m (bindings st).
Definition set_bindings (st : AppState) (b : gmap string Binding) : AppState :=
  mkAppState (view_stack st) (children st) (focused st) (mouse_over st) (mouse_captured st) b.

(** [App.__init__]: [_view_stack = [View()]], nothing focused, no bindings. *)
Definition init_app (root_view : ViewId) : AppState :=
  mkAppState [root_view] ∅ None None None ∅.

(** The observable effects of the orchestrator's methods, in order. *)
Inductive Eff :=
  | Post (n : Node) (e : Event)            (* await n.post_message(e) *)
  | Forward (n : Node) (e : Event)         (* await n.forward_event(e) *)
  | StartMessages (n : Node)               (* n.start_messages() *)
  | SetParent (n : Node)                   (* n.set_parent(self) *)
  | AssignFocused (w : option AWidget)     (* self.focused = w *)
  | AssignMouseOver (w : option AWidget)   (* self.mouse_over = w *)
  | RunAction (a : string)                 (* await self.action(a) *)
  | SuperOnEvent (e : Event).              (* await super().on_event(e) *)

(** [App.view]: [self._view_stack[-1]]; [None] is the [IndexError] of an
    empty stack. *)
Definition view (st : AppState) : option ViewId := last (view_stack st).

(** [App.set_focus(widget)] *)
Definition set_focus (st : AppState) (widget : option AWidget) : AppState * list Eff :=
  if decide (widget = focused st) then (st, [])
  else
    match widget with
    | None =>
        match focused st with
        | Some f => (set_focused st None, [AssignFocused None; Post (NWidget f) Blur])
        | None => (st, [])
        end
    | Some w =>
        if can_focus w then
          let blur := match focused st with
                      | Some f => [Post (NWidget f) Blur]
                      | None => []
                      end in
          (* [if widget is not None and self.focused != widget]: nothing has
             changed [self.focused] since the first test. *)
          if decide (focused st ≠ Some w) then
            (set_focused st (Some w), blur ++ [AssignFocused (Some w); Post (NWidget w) Focus])
          else (st, blur)
        else (st, [])
    end.

(** [App.set_mouse_over(widget)]. Delivering a notification may raise: the
    parameter [raises] says which deliveries do. The result is the new state,
    the effects, and whether the call raised ([try ... finally] re-raises
    after the assignment). *)
Section MouseOver.
Variable raises : Node -> Event -> bool.

Definition set_mouse_over (st : AppState) (widget : option AWidget)
    : AppState * list Eff * bool :=
  match widget with
  | None =>
      match mouse_over st with
      | Some m =>
          (set_mouse_over_field st None,
           [Post (NWidget m) Leave; AssignMouseOver None],
           raises (NWidget m) Leave)
      | None => (st, [], false)
      end
  | Some w =>
      if decide (mouse_over st ≠ Some w) then
        let '(notes, raised) :=
          match mouse_over st with
          | Some m =>
              if raises (NWidget m) Leave then ([Forward (NWidget m) Leave], true)
              else ([Forward (NWidget m) Leave; Forward (NWidget w) Enter],
                    raises (NWidget w) Enter)
          | None => ([Forward (NWidget w) Enter], raises (NWidget w) Enter)
          end in
        (set_mouse_over_field st (Some w), notes ++ [AssignMouseOver (Some w)], raised)
      else (st, [], false)
  end.

End MouseOver.

(** [App.capture_mouse(widget)] *)
Definition capture_mouse (st : AppState) (widget : option AWidget) : AppState :=
  set_mouse_captured st widget.

(** [App.register(child)] for a view: add to [children], start its loop,
    post [Created]. *)
Definition register (st : AppState) (v : ViewId) : AppState * list Eff :=
  (set_children st ({[v]} ∪ children st),
   [StartMessages (NView v); Post (NView v) Created]).

(** Python's [l[i] = x]: [None] is the [IndexError] out of range. *)
Definition list_setitem {A} (l : list A) (i : nat) (x : A) : option (list A) :=
  if decide (i < List.length l)%nat then Some (<[i := x]> l) else None.

(** [App.push_view(view)]; the boolean says whether it raised. *)
Definition push_view (st : AppState) (v : ViewId) : AppState * list Eff * bool :=
  let '(st, tr) := register st v in
  let tr := tr ++ [SetParent (NView v)] in
  match list_setitem (view_stack st) 0 v with
  | Some s => (set_view_stack st s, tr, false)
  | None => (st, tr, true)
  end.

(** Python's [str.isspace] on ASCII: tab, newline, vertical tab, form feed,
    carriage return, the separators 0x1c-0x1f and space. *)
Definition is_py_space (c : ascii) : bool :=
  let n := nat_of_ascii c in
  ((9 <=? n)%nat && (n <=? 13)%nat) || ((28 <=? n)%nat && (n <=? 32)%nat).

Fixpoint drop_space (l : list ascii) : list ascii :=
  match l with
  | c :: l' => if is_py_space c then drop_space l' else l
  | [] => []
  end.

(** [str.strip()] *)
Definition strip (s : string) : string :=
  string_of_list_ascii (rev (drop_space (rev (drop_space (list_ascii_of_string s))))).

(** [str.split(sep)] for a one-character separator. *)
Fixpoint split_on (sep : ascii) (s : string) : list string :=
  match s with
  | EmptyString => [EmptyString]
  | String c s' =>
      if ascii_dec c sep then EmptyString :: split_on sep s'
      else match split_on sep s' with
           | p :: ps => String c p :: ps
           | [] => [String c EmptyString]
           end
  end.

Definition comma : ascii := ","%char.

(** [[key.strip() for key in keys.split(",")]] *)
Definition all_keys (keys : string) : list string := map strip (split_on comma keys).

(** [App.bind(keys, action, description)] *)
Definition bind (st : AppState) (keys action description : string) : AppState :=
  set_bindings st
    (fold_left (fun b key => <[key := mkBinding action description]> b)
               (all_keys keys) (bindings st)).

(** [App.on_event(event)]: the effects and whether it raised (the
    [IndexError] of [self.view] on an empty stack). *)
Definition on_event (st : AppState) (event : Event) : list Eff * bool :=
  match event with
  | Key k =>
      match bindings st !! k with
      | Some binding => ([RunAction (b_action binding)], false)
      | None =>
          let to_focused := match focused st with
                            | Some f => [Forward (NWidget f) event]
                            | None => []
                            end in
          match view st with
          | Some v => (to_focused ++ [Forward (NView v) event], false)
          | None => (to_focused, true)
          end
      end
  | _ =>
      if is_input_event event then
        match view st with
        | Some v => ([Forward (NView v) event], false)
        | None => ([], true)
        end
      else ([SuperOnEvent event], false)
  end.

(** Orchestrator operations that touch its state, for invariants over any
    sequence of calls. *)
Inductive Op :=
  | OpPushView (v : ViewId)
  | OpSetFocus (w : option AWidget)
  | OpSetMouseOver (w : option AWidget)
  | OpCaptureMouse (w : option AWidget)
  | OpBind (keys action description : string).

Section Ops.
Variable raises : Node -> Event -> bool.

Definition app_step (st : AppState) (op : Op) : AppState :=
  match op with
  | OpPushView v => (push_view st v).1.1
  | OpSetFocus w => (set_focus st w).1
  | OpSetMouseOver w => (set_mouse_over raises st w).1.1
  | OpCaptureMouse w => capture_mouse st w
  | OpBind k a d => bind st k a d
  end.

Definition run_ops (st : AppState) (ops : list Op) : AppState := fold_left app_step ops st.

End Ops.

(** A sequence of [set_focus] calls: the final state and all effects. *)
Fixpoint run_set_focus (st : AppState) (ws : list (option AWidget)) : AppState * list Eff :=
  match ws with
  | [] => (st, [])
  | w :: ws' =>
      let '(st1, tr1) := set_focus st w in
      let '(st2, tr2) := run_set_focus st1 ws' in
      (st2, tr1 ++ tr2)
  end.

(** Checks that no two [Focus] messages are posted without a [Blur] in
    between; the flag says whether the last of them was a [Focus]. *)
Fixpoint focus_blur_alternate (last_focus : bool) (tr : list Eff) : bool :=
  match tr with
  | [] => true
  | Post _ Focus :: tr' => negb last_focus && focus_blur_alternate true tr'
  | Post _ Blur :: tr' => focus_blur_alternate false tr'
  | _ :: tr' => focus_blur_alternate last_focus tr'
  end.

(** *** [App.action] and [App.dispatch_action] *)

(** The exceptions that matter here. *)
Inductive Exn := ActionError | AttributeError | ZeroDivisionError | OtherError (n : nat).

(** An object with its [action_*] methods; a method returns the exception
    it raises, if any. *)
Record Obj := mkObj {
  obj_id : nat;
  obj_methods : list (string * (list string -> option Exn)) }.

(** [getattr(namespace, method_name, None)] *)
Fixpoint lookup_method (ms : list (string * (list string -> option Exn))) (name : string)
    : option (list string -> option Exn) :=
  match ms with
  | [] => None
  | (n, m) :: ms' => if String.eqb n name then Some m else lookup_method ms' name
  end.

(** A method call that was made. *)
Inductive Call := Invoke (target : nat) (method_name : string) (params : list string).

(** [App.dispatch_action(namespace, action_name, params)] *)
Definition dispatch_action (namespace : Obj) (action_name : string) (params : list string)
    : list Call * option Exn :=
  let method_name := ("action_" ++ action_name)%string in
  match lookup_method (obj_methods namespace) method_name with
  | Some method => ([Invoke (obj_id namespace) method_name params], method params)
  | None => ([], None)
  end.

Definition dot : ascii := "."%char.

(** ["." in target] *)
Fixpoint has_dot (s : string) : bool :=
  match s with
  | EmptyString => false
  | String c s' => if ascii_dec c dot then true else has_dot s'
  end.

(** [target.split(".", 1)] when the target has a dot. *)
Fixpoint split_dot1 (s : string) : string * string :=
  match s with
  | EmptyString => (EmptyString, EmptyString)
  | String c s' =>
      if ascii_dec c dot then (EmptyString, s')
      else let '(a, b) := split_dot1 s' in (String c a, b)
  end.

(** [self._action_targets = {"app", "view"}] *)
Definition action_targets : list string := ["app"; "view"]%string.

Section Action.
(** [actions.parse], the external action grammar parser. *)
Variable parse : string -> string * list string.
(** [self] and the value of the property [App.view]. *)
Variables self_obj view_obj : Obj.

(** [getattr(self, destination)] for a registered destination: [App]
    defines the property [view] but no attribute [app], so
    [getattr(self, "app")] raises [AttributeError]. *)
Definition getattr_self (destination : string) : option Obj :=
  if String.eqb destination "view" then Some view_obj else None.

(** [App.action(action, default_namespace)] *)
Definition action (act : string) (default_namespace : option Obj) : list Call * option Exn :=
  let '(target, params) := parse act in
  if has_dot target then
    let '(destination, action_name) := split_dot1 target in
    if negb (bool_decide (destination ∈ action_targets)) then ([], Some ActionError)
    else
      match getattr_self destination with
      | Some action_target => dispatch_action action_target action_name params
      | None => ([], Some AttributeError)
      end
  else
    dispatch_action (default self_obj default_namespace) act params.

End Action.

(** *** [App.process_messages] *)

(** The steps of the top-level lifecycle that can be observed or can raise. *)
Inductive Step :=
  | MakeDriver            (* self.driver_class(self.console, self) *)
  | SetActiveApp          (* active_app.set(self) *)
  | SetViewParent         (* self.view.set_parent(self) *)
  | RegisterView          (* await self.register(self.view) *)
  | OnLoad                (* await self.on_load(events.Load(sender=self)) *)
  | PostStartup           (* await self.post_message(events.Startup(...)) *)
  | StartApplicationMode  (* driver.start_application_mode() *)
  | PrintException        (* self.console.print_exception() *)
  | LogException          (* log.exception("error starting application mode") *)
  | AnimatorStart         (* await self.animator.start() *)
  | MainLoop              (* await super().process_messages() *)
  | AnimatorStop          (* await self.animator.stop() *)
  | CloseView             (* await self.view.close_messages() *)
  | StopApplicationMode   (* driver.stop_application_mode() *)
  | PrintTraceback.       (* self.console.print(traceback) *)

Global Instance Step_eq_dec : EqDecision Step.
Proof. solve_decision. Defined.

(** A Python exception: [is_Exception] says whether its class derives from
    [Exception] (and not only from [BaseException], as [KeyboardInterrupt]
    or [asyncio.CancelledError] do). *)
Record PyExc := mkPyExc { exc_id : nat; is_Exception : bool }.

(** A writer-and-exception monad: the steps attempted, then either the
    exception escaping or the result. *)
Definition L (A : Type) : Type := list Step * (PyExc + A).

Global Instance L_ret : MRet L := fun A x => ([], inr x).
Global Instance L_bind : MBind L := fun A B f m =>
  match m with
  | (tr, inl e) => (tr, inl e)
  | (tr, inr x) => let '(tr', r) := f x in (tr ++ tr', r)
  end.

Section Lifecycle.
(** Which external steps raise, and what. *)
Variable outcome : Step -> option PyExc.

Definition run_step (s : Step) : L unit :=
  match outcome s with
  | Some e => ([s], inl e)
  | None => ([s], inr tt)
  end.

(** [try: m except Exception as e: handler(e)] *)
Definition try_except_Exception {A} (m : L A) (handler : PyExc -> L A) : L A :=
  match m with
  | (tr, inl e) =>
      if is_Exception e then let '(tr', r) := handler e in (tr ++ tr', r)
      else (tr, inl e)
  | ok => ok
  end.

(** [App.process_messages()]. [hasattr(self, "on_load")] holds: [App]
    defines [on_load]. The [try/except/else] is encoded by the boolean
    returned from the [try] part. *)
Definition process_messages : L unit :=
  run_step MakeDriver;;
  run_step SetActiveApp;;
  run_step SetViewParent;;
  run_step RegisterView;;
  run_step OnLoad;;
  run_step PostStartup;;
  started ← try_except_Exception (A := bool) (run_step StartApplicationMode;; mret true)
              (fun _ => run_step PrintException;; run_step LogException;; mret false);
  if (started : bool) then (
    run_step AnimatorStart;;
    traceback ← try_except_Exception (A := option PyExc) (run_step MainLoop;; mret None)
                  (fun e => mret (Some e));
    run_step AnimatorStop;;
    run_step CloseView;;
    run_step StopApplicationMode;;
    match (traceback : option PyExc) with
    | Some _ => run_step PrintTraceback
    | None => mret tt
    end)
  else mret tt.

End Lifecycle.

End App.

(* ------------------------------------------------------------------ *)
(** ** More of app.py: [remove] and [refresh] *)

Module AppExtra.
Import App.

(** [App.remove(child)]: [self.children.remove(child)]; [None] is the
    [KeyError] of [set.remove] on a missing element. *)
Definition remove (st : AppState) (v : ViewId) : option AppState :=
  if decide (v ∈ children st) then Some (set_children st (children st ∖ {[v]}))
  else None.

(** The terminal output operations of [App.refresh]. *)
Inductive Out :=
  | WriteSyncBegin          (* console.file.write("\x1bP=1s\x1b\\") *)
  | PrintFrame (v : ViewId) (* with console: console.print(Screen(home, self.view, home)) *)
  | WriteSyncEnd            (* console.file.write("\x1bP=2s\x1b\\") *)
  | LogRefreshFailed.       (* log.exception("refresh failed") *)

(** A writer-and-exception monad over output operations. *)
Definition LO (A : Type) : Type := list Out * (PyExc + A).

Global Instance LO_ret : MRet LO := fun A x => ([], inr x).
Global Instance LO_bind : MBind LO := fun A B f m =>
  match m with
  | (tr, inl e) => (tr, inl e)
  | (tr, inr x) => let '(tr', r) := f x in (tr ++ tr', r)
  end.

(** The [IndexError] of [self._view_stack[-1]] on an empty stack. *)
Definition index_error : PyExc := mkPyExc 1 true.

Section Refresh.
(** Which output operations raise, and what. *)
Variable fails : Out -> option PyExc.

Definition emit (o : Out) : LO unit :=
  match fails o with
  | Some e => ([o], inl e)
  | None => ([o], inr tt)
  end.

Definition raise {A} (e : PyExc) : LO A := ([], inl e).

(** [try: m except Exception: handler] *)
Definition try_except_Exception_out {A} (m : LO A) (handler : PyExc -> LO A) : LO A :=
  match m with
  | (tr, inl e) =>
      if is_Exception e then let '(tr', r) := handler e in (tr ++ tr', r)
      else (tr, inl e)
  | ok => ok
  end.

(** [App.refresh()]: [term_program] is [os.environ.get("TERM_PROGRAM", "")]
    and [closed] is [self._closed]. *)
Definition refresh (closed : bool) (term_program : string) (st : AppState) : LO unit :=
  let sync_available := negb (String.eqb term_program "Apple_Terminal") in
  if closed then mret tt
  else
    try_except_Exception_out
      ((if sync_available then emit WriteSyncBegin else mret tt);;
       v ← (match view st with Some v => mret v | None => raise index_error end : LO ViewId);
       emit (PrintFrame v);;
       (if sync_available then emit WriteSyncEnd else mret tt))
      (fun _ => emit LogRefreshFailed).

End Refresh.

End AppExtra.

(* ================================================================== *)
(** * Properties of the layout engine *)

Module DockLayoutFacts.
Import Geometry DockLayout.

(** A layout computation that only reads the store: whenever it returns,
    the store is the one it started from. *)
Definition reads_only {A} (m : M A) : Prop :=
  forall h, m h = None \/ exists x, m h = Some (x, h).

Lemma reads_only_ret {A} (x : A) : reads_only (mret x).
Proof. intros h. right. exists x. reflexivity. Qed.

Lemma reads_only_bind {A B} (m : M A) (f : A -> M B) :
  reads_only m -> (forall x, reads_only (f x)) -> reads_only (m ≫= f).
Proof.
  intros Hm Hf h. unfold mbind, M_bind.
  destruct (Hm h) as [-> | [x ->]]; [left; reflexivity | apply Hf].
Qed.

Lemma reads_only_get_widget w : reads_only (get_widget w).
Proof. intros h. right. eexists. reflexivity. Qed.

Lemma reads_only_get_heap : reads_only get_heap.
Proof. intros h. right. eexists. reflexivity. Qed.

Lemma reads_only_out_of_fuel {A} : reads_only (@out_of_fuel A).
Proof. intros h. left. reflexivity. Qed.

Create HintDb reads.
#[local] Hint Resolve reads_only_ret reads_only_bind reads_only_get_widget
  reads_only_get_heap reads_only_out_of_fuel : reads.

Lemma reads_only_mapM {A B} (f : A -> M B) l :
  (forall a, reads_only (f a)) -> reads_only (mapM f l).
Proof.
  intros Hf. induction l as [|a l IH]; simpl; auto with reads.
Qed.

Section ReadsOnly.
Variable recur : list Dock -> Z -> Z -> Point -> M LayoutMap.
Hypothesis recur_ro : forall ds w h o, reads_only (recur ds w h o).
Variable offset : Point.

Lemma reads_only_add_widget map w r order : reads_only (add_widget recur offset map w r order).
Proof.
  unfold add_widget. apply reads_only_bind; [apply reads_only_get_widget|].
  intros wr. destruct (layout wr); auto with reads.
Qed.

Lemma reads_only_add_all map placed order : reads_only (add_all recur offset map placed order).
Proof.
  revert map. induction placed as [|[w r] placed IH]; intros map; simpl;
    auto using reads_only_add_widget with reads.
Qed.

Lemma reads_only_layout_docks (rr : Z -> list DockOptions -> list Z) lr ds :
  forall index map layers, reads_only (layout_docks rr recur offset lr index ds map layers).
Proof.
  induction ds as [|dock ds IH]; intros index map layers; simpl; auto with reads.
  apply reads_only_bind.
  { apply reads_only_mapM. intros w. unfold dock_options_of. auto with reads. }
  intros opts. apply reads_only_bind; [apply reads_only_get_heap|]. intros h.
  destruct (dock_core rr _ opts lr layers dock) as [[placed|] layers'].
  - apply reads_only_bind; [apply reads_only_add_all|]. intros m. apply IH.
  - apply IH.
Qed.

End ReadsOnly.

Lemma reads_only_generate_map rr fuel :
  forall docks width height offset,
    reads_only (generate_map rr fuel docks width height offset).
Proof.
  induction fuel as [|fuel IH]; intros docks width height offset; simpl.
  - apply reads_only_out_of_fuel.
  - apply reads_only_layout_docks. exact IH.
Qed.

Lemma dock_loop_consumed e x y width height vis st items :
  total (dock_loop e x y width height vis st items).2 =
  total st + consumed e (dock_loop e x y width height vis st items).1.
Proof.
  revert st. induction items as [|[w s] items IH]; intros st; simpl.
  - unfold consumed. simpl. lia.
  - destruct (vis w); simpl; [|apply IH].
    destruct (Z.min (remaining st) s =? 0); simpl; [unfold consumed; simpl; lia|].
    destruct (place e x y width height (render st) (Z.min (remaining st) s))
      as [reg cur] eqn:Hp.
    specialize (IH (mkLoopState cur (Z.max 0 (remaining st - Z.min (remaining st) s))
                               (total st + Z.min (remaining st) s))).
    destruct (dock_loop e x y width height vis _ items) as [placed stf].
    simpl in *. unfold consumed in *. simpl. rewrite IH.
    assert (axis_extent e reg = Z.min (remaining st) s) as ->.
    { destruct e; simpl in Hp; injection Hp as <- _; reflexivity. }
    lia.
Qed.

Lemma dock_loop_break e x y width height vis st pre w s post :
  vis w = true ->
  Z.min (remaining (dock_loop e x y width height vis st pre).2) s = 0 ->
  (dock_loop e x y width height vis st (pre ++ (w, s) :: post)).1 =
  (dock_loop e x y width height vis st pre).1.
Proof.
  intros Hvis. revert st. induction pre as [|[w' s'] pre IH]; intros st Hz; simpl in *.
  - rewrite Hvis. simpl. rewrite Hz. reflexivity.
  - destruct (vis w'); simpl in *; [|apply IH; exact Hz].
    destruct (Z.min (remaining st) s' =? 0); simpl in *; [reflexivity|].
    destruct (place e x y width height (render st) (Z.min (remaining st) s'))
      as [reg cur].
    specialize (IH (mkLoopState cur (Z.max 0 (remaining st - Z.min (remaining st) s'))
                               (total st + Z.min (remaining st) s'))).
    destruct (dock_loop e x y width height vis _ (pre ++ _)) as [p1 s1] eqn:E1.
    destruct (dock_loop e x y width height vis _ pre) as [p2 s2] eqn:E2.
    simpl in *. rewrite (IH Hz). reflexivity.
Qed.

Lemma loop_init_total e r : total (loop_init e r) = 0.
Proof. destruct e; reflexivity. Qed.

(** ** Examples on a concrete store *)

(** A stand-in for [ratio_resolve] for the examples: fixed sizes, else 1. *)
Definition sizes_or_one (_ : Z) (opts : list DockOptions) : list Z :=
  map (fun o => default 1 (do_size o)) opts.

Definition plain (size : option Z) : Widget :=
  mkWidget true size 1 1 (mkPoint 0 0) None.

(** Widget 1: a header of height 1; widget 2: a view of width 30 that docks
    widget 3 at its top with height 2; widget 4: invisible. *)
Definition example_heap : Heap := fun w =>
  match w with
  | 1%nat => plain (Some 1)
  | 2%nat => mkWidget true (Some 30) 1 1 (mkPoint 0 0) (Some [mkDock Top [3%nat] 0])
  | 3%nat => plain (Some 2)
  | 4%nat => mkWidget false (Some 5) 1 1 (mkPoint 0 0) None
  | _ => plain None
  end.

Definition example_docks : list Dock :=
  [mkDock Top [1%nat] 0; mkDock Left [4%nat; 2%nat] 0].

Example example_header :
  option_map (fun p => mr_region <$> p.1 !! 1%nat)
    (generate_map sizes_or_one 3 example_docks 80 24 (mkPoint 0 0) example_heap)
  = Some (Some (mkRegion 0 0 80 1)).
Proof. reflexivity. Qed.

Example example_nested :
  option_map (fun p => (mr_region <$> p.1 !! 2%nat, mr_region <$> p.1 !! 3%nat,
                        p.1 !! 4%nat))
    (generate_map sizes_or_one 3 example_docks 80 24 (mkPoint 0 0) example_heap)
  = Some (Some (mkRegion 0 1 30 23), Some (mkRegion 0 1 30 2), None).
Proof. reflexivity. Qed.

(** ** Claims *)

(** C4: every z-layer's remaining region starts as the whole viewport;
    processing a dock leaves the remaining region of every other layer
    unchanged, and shrinks its own layer's region by the extent the dock
    consumed, on the dock's axis only (the other coordinate and dimension
    are kept). *)
Theorem layers_independent (rr : Z -> list DockOptions -> list Z)
    (vis : WidgetId -> bool) (opts : list DockOptions) (lr : Region)
    (layers : gmap Z Region) (dock : Dock) :
  (forall k, layer_get lr ∅ k = lr) /\
  (forall k, k <> z dock ->
     layer_get lr (dock_core rr vis opts lr layers dock).2 k = layer_get lr layers k) /\
  (let r := layer_get lr layers (z dock) in
   let '(res, layers') := dock_core rr vis opts lr layers dock in
   layer_get lr layers' (z dock) =
     match res with
     | None => r
     | Some placed => shrink (edge dock) r (consumed (edge dock) placed)
     end) /\
  (let r := layer_get lr layers (z dock) in
   let r' := layer_get lr (dock_core rr vis opts lr layers dock).2 (z dock) in
   match edge dock with
   | Top | Bottom => rx r' = rx r /\ rwidth r' = rwidth r
   | Left | Right => ry r' = ry r /\ rheight r' = rheight r
   end).
Proof.
  unfold dock_core, layer_get.
  set (r := default lr (layers !! z dock)).
  destruct (negb (region_truthy r)).
  - simpl. split; [reflexivity|]. split; [|split].
    + intros k Hk. rewrite lookup_insert_ne by congruence. reflexivity.
    + rewrite lookup_insert_eq. reflexivity.
    + rewrite lookup_insert_eq. destruct (edge dock); split; reflexivity.
  - destruct (dock_loop _ _ _ _ _ _ _ _) as [placed st] eqn:Hl.
    pose proof (dock_loop_consumed (edge dock) (rx r) (ry r) (rwidth r) (rheight r) vis
                  (loop_init (edge dock) r)
                  (combine (widgets dock) (rr (axis_extent (edge dock) r) opts))) as Hc.
    rewrite Hl, loop_init_total in Hc. simpl in Hc.
    split; [reflexivity|]. split; [|split]; simpl.
    + intros k Hk. rewrite !lookup_insert_ne by congruence. reflexivity.
    + rewrite lookup_insert_eq. simpl. rewrite Hc. reflexivity.
    + rewrite lookup_insert_eq. simpl. destruct (edge dock); simpl; split; reflexivity.
Qed.

Lemma layers_independent_witness :
  layer_get (mkRegion 0 0 80 24)
    (dock_core sizes_or_one (fun _ => true) [mkDockOptions (Some 40) 1 1]
       (mkRegion 0 0 80 24) ∅ (mkDock Left [1%nat] 1)).2 0 = mkRegion 0 0 80 24.
Proof.
  destruct (layers_independent sizes_or_one (fun _ => true) [mkDockOptions (Some 40) 1 1]
              (mkRegion 0 0 80 24) ∅ (mkDock Left [1%nat] 1)) as [Hinit [Hother _]].
  rewrite (Hother 0 ltac:(discriminate)). apply Hinit.
Defined.

(** C5: walking a dock's widgets, once a visible widget's size clamped to the
    remaining capacity is 0, that widget and every later widget of the dock
    get no region: the placements are those of the widgets before it. In
    particular, of three visible widgets whose second is clamped to 0, only
    the first is placed. *)
Theorem zero_size_truncates_dock e x y width height (vis : WidgetId -> bool)
    (st : LoopState) (pre : list (WidgetId * Z)) (w : WidgetId) (s : Z)
    (post : list (WidgetId * Z)) :
  (vis w = true ->
   Z.min (remaining (dock_loop e x y width height vis st pre).2) s = 0 ->
   (dock_loop e x y width height vis st (pre ++ (w, s) :: post)).1 =
   (dock_loop e x y width height vis st pre).1) /\
  (forall a b c sa sb sc,
   vis a = true -> vis b = true -> vis c = true ->
   Z.min (remaining st) sa <> 0 ->
   Z.min (Z.max 0 (remaining st - Z.min (remaining st) sa)) sb = 0 ->
   map fst (dock_loop e x y width height vis st [(a, sa); (b, sb); (c, sc)]).1 = [a]).
Proof.
  split; [apply dock_loop_break|].
  intros a b c sa sb sc Ha Hb Hc Hsa Hsb.
  change [(a, sa); (b, sb); (c, sc)] with ([(a, sa)] ++ (b, sb) :: [(c, sc)]).
  rewrite dock_loop_break; [| exact Hb |].
  - simpl. rewrite Ha. simpl. apply Z.eqb_neq in Hsa. rewrite Hsa.
    destruct (place _ _ _ _ _ _ _). reflexivity.
  - simpl. rewrite Ha. simpl. apply Z.eqb_neq in Hsa. rewrite Hsa.
    destruct (place _ _ _ _ _ _ _). exact Hsb.
Qed.

Lemma zero_size_truncates_dock_witness :
  map fst (dock_loop Top 0 0 80 24 (fun _ => true) (mkLoopState 0 24 0)
             [(1%nat, 24); (2%nat, 5); (3%nat, 5)]).1 = [1%nat].
Proof.
  destruct (zero_size_truncates_dock Top 0 0 80 24 (fun _ => true) (mkLoopState 0 24 0)
              [] 1%nat 24 []) as [_ H3].
  apply H3; try reflexivity; simpl; lia.
Defined.

(** C8: [generate_map] only reads the store of widget objects (it mutates
    neither the widgets nor the dock lists they hold), so two calls in a row
    with the same dock list, viewport and offset return the same map. *)
Theorem generate_map_pure (rr : Z -> list DockOptions -> list Z) (fuel : nat)
    (docks : list Dock) (width height : Z) (offset : Point) (h : Heap) :
  (generate_map rr fuel docks width height offset h = None \/
   exists map, generate_map rr fuel docks width height offset h = Some (map, h)) /\
  (m1 ← generate_map rr fuel docks width height offset;
   m2 ← generate_map rr fuel docks width height offset;
   mret (m1, m2)) h =
  match generate_map rr fuel docks width height offset h with
  | Some (m, h') => Some ((m, m), h')
  | None => None
  end.
Proof.
  destruct (reads_only_generate_map rr fuel docks width height offset h)
    as [Hn | [m Hs]].
  - split; [left; exact Hn|]. unfold mbind, M_bind. rewrite Hn. reflexivity.
  - split; [right; exists m; exact Hs|]. unfold mbind, M_bind. rewrite Hs, Hs.
    reflexivity.
Qed.

End DockLayoutFacts.

(* ================================================================== *)
(** * Properties of the orchestrator *)

Module AppFacts.
Import App.

Definition w1 : AWidget := mkAWidget 1 true.
Definition w2 : AWidget := mkAWidget 2 true.

(** The state with [w] focused (or pointed at), from a fresh app. *)
Definition focused_on (w : AWidget) : AppState := set_focused (init_app 0) (Some w).
Definition pointer_on (w : AWidget) : AppState := set_mouse_over_field (init_app 0) (Some w).

(** ** Focus *)

Definition has_focus (st : AppState) : bool :=
  match focused st with Some _ => true | None => false end.

Lemma set_focus_alternates st w rest :
  focus_blur_alternate (has_focus (set_focus st w).1) rest = true ->
  focus_blur_alternate (has_focus st) ((set_focus st w).2 ++ rest) = true.
Proof.
  unfold set_focus, has_focus.
  destruct (decide (w = focused st)) as [Heq|Hne]; [simpl; auto|].
  destruct w as [w|].
  - destruct (can_focus w); [|simpl; auto].
    destruct (decide (focused st ≠ Some w)) as [Hn|Hn].
    + destruct (focused st) as [f|]; simpl; auto.
    + exfalso. apply Hne.
      destruct (decide (focused st = Some w)); [congruence | contradiction].
  - destruct (focused st) as [f|]; simpl; auto.
Qed.

Lemma run_set_focus_alternates ws : forall st,
  focus_blur_alternate (has_focus st) (run_set_focus st ws).2 = true.
Proof.
  induction ws as [|w ws IH]; intros st; simpl; [reflexivity|].
  destruct (set_focus st w) as [st1 tr1] eqn:Hs.
  destruct (run_set_focus st1 ws) as [st2 tr2] eqn:Hr. simpl.
  pose proof (set_focus_alternates st w tr2) as P. rewrite Hs in P. simpl in P.
  apply P. specialize (IH st1). rewrite Hr in IH. exact IH.
Qed.

(** C1 (the claim as stated fails): with [w1] focused, [set_focus(w2)]
    assigns [self.focused] before posting [Focus], not after. *)
Lemma set_focus_assigns_before_focus :
  (set_focus (focused_on w1) (Some w2)).2 <>
  [Post (NWidget w1) Blur; Post (NWidget w2) Focus; AssignFocused (Some w2)].
Proof. vm_compute. congruence. Qed.

(** C1 (amended): when [w] can take focus and another widget [old] holds it,
    [set_focus(w)] posts [Blur] to [old], then sets [focused] to [w], then
    posts [Focus] to [w]; and over any sequence of [set_focus] calls from a
    fresh app, no two [Focus] messages are posted without a [Blur] between
    them. *)
Theorem set_focus_blur_before_focus (st : AppState) (old w : AWidget) :
  can_focus w = true -> focused st = Some old -> old <> w ->
  set_focus st (Some w) =
    (set_focused st (Some w),
     [Post (NWidget old) Blur; AssignFocused (Some w); Post (NWidget w) Focus]) /\
  (forall (root : ViewId) (ws : list (option AWidget)),
     focus_blur_alternate false (run_set_focus (init_app root) ws).2 = true).
Proof.
  intros Hc Ho Hne. split.
  - unfold set_focus. rewrite Ho.
    destruct (decide (Some w = Some old)) as [E|_]; [congruence|].
    rewrite Hc.
    destruct (decide (Some old ≠ Some w)) as [_|E]; [reflexivity|].
    exfalso. apply E. congruence.
  - intros root ws. apply (run_set_focus_alternates ws (init_app root)).
Qed.

Lemma set_focus_blur_before_focus_witness :
  can_focus w2 = true /\ focused (focused_on w1) = Some w1 /\ w1 <> w2 /\
  set_focus (focused_on w1) (Some w2) =
    (set_focused (focused_on w1) (Some w2),
     [Post (NWidget w1) Blur; AssignFocused (Some w2); Post (NWidget w2) Focus]).
Proof.
  assert (Hne : w1 <> w2) by (unfold w1, w2; congruence).
  split; [reflexivity|]. split; [reflexivity|]. split; [exact Hne|].
  apply (set_focus_blur_before_focus (focused_on w1) w1 w2 eq_refl eq_refl Hne).
Defined.

(** ** Pointer-over *)

(** C2: [set_mouse_over(w)] with [w] not the current pointer-over widget
    delivers [Leave] to the old holder (if any) and then, unless that
    raised, [Enter] to [w]; it sets [mouse_over] to [w] whether or not a
    notification raised. [set_mouse_over(None)] posts [Leave] to the holder
    and clears [mouse_over] whether or not that raised. *)
Theorem set_mouse_over_commits (raises : Node -> Event -> bool) (st : AppState)
    (w : AWidget) :
  mouse_over st <> Some w ->
  (let '(st', tr, raised) := set_mouse_over raises st (Some w) in
   mouse_over st' = Some w /\
   tr = match mouse_over st with
        | Some m => Forward (NWidget m) Leave ::
                      (if raises (NWidget m) Leave then [] else [Forward (NWidget w) Enter])
        | None => [Forward (NWidget w) Enter]
        end ++ [AssignMouseOver (Some w)] /\
   raised = match mouse_over st with
            | Some m => raises (NWidget m) Leave || raises (NWidget w) Enter
            | None => raises (NWidget w) Enter
            end) /\
  (forall m, mouse_over st = Some m ->
   let '(st', tr, raised) := set_mouse_over raises st None in
   mouse_over st' = None /\ tr = [Post (NWidget m) Leave; AssignMouseOver None] /\
   raised = raises (NWidget m) Leave).
Proof.
  intros Hne. split.
  - unfold set_mouse_over.
    destruct (decide (mouse_over st ≠ Some w)) as [_|E]; [|contradiction].
    destruct (mouse_over st) as [m|]; simpl.
    + destruct (raises (NWidget m) Leave); simpl; auto.
    + auto.
  - intros m Hm. unfold set_mouse_over. rewrite Hm. simpl. auto.
Qed.

Lemma set_mouse_over_commits_witness :
  mouse_over (pointer_on w1) <> Some w2 /\
  mouse_over (set_mouse_over (fun _ _ => true) (pointer_on w1) (Some w2)).1.1 = Some w2.
Proof.
  assert (H : mouse_over (pointer_on w1) <> Some w2) by (simpl; unfold w1, w2; congruence).
  split; [exact H|].
  pose proof (proj1 (set_mouse_over_commits (fun _ _ => true) (pointer_on w1) w2 H)) as P.
  exact (proj1 P).
Defined.

(** ** Key routing *)

Definition quit_app : AppState := bind (focused_on w1) "q, ctrl+c" "quit" "Quit".

Example quit_keys : all_keys "q, ctrl+c" = ["q"; "ctrl+c"]%string.
Proof. reflexivity. Qed.

Example routed_bound :
  on_event quit_app (Key "q") = ([RunAction "quit"], false).
Proof. reflexivity. Qed.

Example routed_unbound :
  on_event quit_app (Key "x") =
    ([Forward (NWidget w1) (Key "x"); Forward (NView 0) (Key "x")], false).
Proof. reflexivity. Qed.

(** C3: a [Key] event whose key is bound only dispatches the bound action
    and reaches no node; an unbound key is forwarded to the focused widget
    when there is one, and then always to the active view. *)
Theorem key_routing (st : AppState) (k : string) (v : ViewId) :
  view st = Some v ->
  on_event st (Key k) =
    match bindings st !! k with
    | Some b => ([RunAction (b_action b)], false)
    | None =>
        (match focused st with
         | Some f => [Forward (NWidget f) (Key k)]
         | None => []
         end ++ [Forward (NView v) (Key k)], false)
    end.
Proof.
  intros Hv. unfold on_event. destruct (bindings st !! k); [reflexivity|].
  rewrite Hv. reflexivity.
Qed.

Lemma key_routing_witness :
  view quit_app = Some 0%nat /\
  on_event quit_app (Key "x") =
    ([Forward (NWidget w1) (Key "x"); Forward (NView 0) (Key "x")], false).
Proof.
  split; [reflexivity|].
  rewrite (key_routing quit_app "x" 0 eq_refl). reflexivity.
Defined.

(** ** Actions *)






(** ** Lifecycle *)

Definition preamble : list Step :=
  [MakeDriver; SetActiveApp; SetViewParent; RegisterView; OnLoad; PostStartup].

(** [KeyboardInterrupt] escaping the main loop; nothing else raises. *)
Definition interrupt_in_loop (s : Step) : option PyExc :=
  if decide (s = MainLoop) then Some (mkPyExc 0 false) else None.

(** C7 (the claim as stated fails): an exception that derives only from
    [BaseException] escaping the main loop is not captured: it propagates
    and none of the teardown steps runs. *)
Lemma base_exception_skips_teardown :
  process_messages interrupt_in_loop =
    (preamble ++ [StartApplicationMode; AnimatorStart; MainLoop], inl (mkPyExc 0 false)) /\
  AnimatorStop ∉ (process_messages interrupt_in_loop).1.
Proof.
  split; [reflexivity|]. vm_compute. intros H.
  repeat (apply elem_of_cons in H as [H|H]; [discriminate|]).
  apply elem_of_nil in H. exact H.
Qed.

Ltac run_steps :=
  unfold process_messages, run_step, try_except_Exception, mbind, L_bind, mret, L_ret.

(** C7 (amended): if entering application mode raises, neither the main
    loop nor any teardown step runs. If the preamble, application mode and
    the animator start succeed, and the main loop returns or raises an
    [Exception] (which is captured), then after the loop the animator is
    stopped, then the view is closed, then application mode is left, each
    only if the previous step did not raise, and only after all three is a
    captured exception printed; the loop's exception never escapes. An
    exception escaping the main loop that derives only from [BaseException]
    is not captured: it leaves [process_messages] right after the loop and
    none of the teardown steps runs. *)
Theorem lifecycle_teardown (outcome : Step -> option PyExc) :
  (outcome StartApplicationMode <> None ->
   forall s, s ∈ [AnimatorStart; MainLoop; AnimatorStop; CloseView;
                  StopApplicationMode; PrintTraceback] ->
   s ∉ (process_messages outcome).1) /\
  (Forall (fun s => outcome s = None) (preamble ++ [StartApplicationMode; AnimatorStart]) ->
   match outcome MainLoop with Some e => is_Exception e = true | None => True end ->
   process_messages outcome =
     let '(tr, r) :=
       match outcome AnimatorStop with
       | Some e => ([AnimatorStop], inl e)
       | None =>
         match outcome CloseView with
         | Some e => ([AnimatorStop; CloseView], inl e)
         | None =>
           match outcome StopApplicationMode with
           | Some e => ([AnimatorStop; CloseView; StopApplicationMode], inl e)
           | None =>
             match outcome MainLoop with
             | Some _ =>
                 ([AnimatorStop; CloseView; StopApplicationMode; PrintTraceback],
                  match outcome PrintTraceback with Some e => inl e | None => inr tt end)
             | None => ([AnimatorStop; CloseView; StopApplicationMode], inr tt)
             end
           end
         end
       end in
     (preamble ++ [StartApplicationMode; AnimatorStart; MainLoop] ++ tr, r)) /\
  (forall e,
   Forall (fun s => outcome s = None) (preamble ++ [StartApplicationMode; AnimatorStart]) ->
   outcome MainLoop = Some e -> is_Exception e = false ->
   process_messages outcome =
     (preamble ++ [StartApplicationMode; AnimatorStart; MainLoop], inl e)).
Proof.
  split; [|split].
  - intros Hs s Hin. run_steps.
    destruct (outcome StartApplicationMode) as [e|]; [|congruence].
    repeat match goal with
           | |- context [match outcome ?x with _ => _ end] =>
               destruct (outcome x); simpl
           | |- context [if is_Exception ?e then _ else _] =>
               destruct (is_Exception e); simpl
           end;
    intros H; repeat (apply elem_of_cons in H as [H|H]; [subst; simpl in Hin;
      repeat (apply elem_of_cons in Hin as [Hin|Hin]; [discriminate|]);
      apply elem_of_nil in Hin; exact Hin|]);
    apply elem_of_nil in H; exact H.
  - intros Hok Hloop.
    repeat (apply Forall_cons in Hok as [? Hok]). apply Forall_nil in Hok.
    unfold preamble. run_steps.
    repeat match goal with H : outcome _ = None |- _ => rewrite H; clear H end.
    simpl.
    destruct (outcome MainLoop) as [e|]; simpl; [rewrite Hloop; simpl|];
    destruct (outcome AnimatorStop); simpl; try reflexivity;
    destruct (outcome CloseView); simpl; try reflexivity;
    destruct (outcome StopApplicationMode); simpl; try reflexivity;
    destruct (outcome PrintTraceback); reflexivity.
  - intros e Hok Hloop He.
    repeat (apply Forall_cons in Hok as [? Hok]). apply Forall_nil in Hok.
    unfold preamble. run_steps.
    repeat match goal with H : outcome _ = None |- _ => rewrite H; clear H end.
    simpl. rewrite Hloop. simpl. rewrite He. reflexivity.
Qed.

Definition nothing_raises (_ : Step) : option PyExc := None.

Lemma lifecycle_teardown_witness :
  process_messages nothing_raises =
    (preamble ++ [StartApplicationMode; AnimatorStart; MainLoop; AnimatorStop; CloseView;
                  StopApplicationMode], inr tt) /\
  process_messages interrupt_in_loop =
    (preamble ++ [StartApplicationMode; AnimatorStart; MainLoop], inl (mkPyExc 0 false)).
Proof.
  split.
  - rewrite (proj1 (proj2 (lifecycle_teardown nothing_raises))).
    + reflexivity.
    + repeat constructor.
    + exact I.
  - apply (proj2 (proj2 (lifecycle_teardown interrupt_in_loop))).
    + repeat constructor.
    + reflexivity.
    + reflexivity.
Defined.

(** ** View stack *)

Lemma set_focus_view_stack st w : view_stack (set_focus st w).1 = view_stack st.
Proof. unfold set_focus. repeat case_match; reflexivity. Qed.

Lemma set_mouse_over_view_stack raises st w :
  view_stack (set_mouse_over raises st w).1.1 = view_stack st.
Proof. unfold set_mouse_over. repeat case_match; simplify_eq; reflexivity. Qed.

Lemma push_view_single st v :
  List.length (view_stack st) = 1%nat ->
  view_stack (push_view st v).1.1 = [v] /\ (push_view st v).2 = false.
Proof.
  intros Hl. destruct (view_stack st) as [|x [|y l]] eqn:Hs; simpl in Hl; try lia.
  unfold push_view, register, list_setitem. simpl. rewrite Hs. simpl.
  split; reflexivity.
Qed.

Lemma app_step_single raises st op :
  List.length (view_stack st) = 1%nat -> List.length (view_stack (app_step raises st op)) = 1%nat.
Proof.
  intros Hl. destruct op as [v|w|w|w|k a d]; simpl.
  - rewrite (proj1 (push_view_single st v Hl)). reflexivity.
  - rewrite set_focus_view_stack. exact Hl.
  - rewrite set_mouse_over_view_stack. exact Hl.
  - exact Hl.
  - exact Hl.
Qed.

Lemma run_ops_single raises ops : forall st,
  List.length (view_stack st) = 1%nat -> List.length (view_stack (run_ops raises st ops)) = 1%nat.
Proof.
  induction ops as [|op ops IH]; intros st Hl; simpl; [exact Hl|].
  apply IH. apply app_step_single. exact Hl.
Qed.

(** C9 (the claim as stated fails): pushing the view that is already active
    leaves it in the stack. *)
Lemma push_active_view_stays :
  view (init_app 0) = Some 0%nat /\ (0%nat ∈ view_stack (push_view (init_app 0) 0).1.1).
Proof. split; [reflexivity|]. simpl. apply list_elem_of_singleton. reflexivity. Qed.

(** C9 (amended): the view stack of an app always holds exactly one view,
    whatever operations run; [push_view(v)] overwrites index 0, so afterwards
    the stack is [[v]], the active view is [v], and every view other than [v]
    (in particular a previously active view different from [v]) is gone. *)
Theorem view_stack_single (raises : Node -> Event -> bool) (root : ViewId) (ops : list Op)
    (st : AppState) (v : ViewId) :
  List.length (view_stack (run_ops raises (init_app root) ops)) = 1%nat /\
  (List.length (view_stack st) = 1%nat ->
   view_stack (push_view st v).1.1 = [v] /\ view (push_view st v).1.1 = Some v /\
   (push_view st v).2 = false /\
   forall u, u <> v -> u ∉ view_stack (push_view st v).1.1).
Proof.
  split; [apply run_ops_single; reflexivity|].
  intros Hl. destruct (push_view_single st v Hl) as [Hs Hr].
  unfold view. rewrite Hs. split; [reflexivity|]. split; [reflexivity|].
  split; [exact Hr|]. intros u Hu Hin. apply list_elem_of_singleton in Hin. congruence.
Qed.

Lemma view_stack_single_witness :
  view (push_view (init_app 0) 5).1.1 = Some 5%nat /\ (0%nat ∉ view_stack (push_view (init_app 0) 5).1.1).
Proof.
  destruct (view_stack_single (fun _ _ => false) 0 [] (init_app 0) 5) as [_ H].
  destruct (H eq_refl) as [_ [Hv [_ Hn]]].
  split; [exact Hv|]. apply Hn. lia.
Defined.

(** ** Bindings *)

Lemma fold_insert_lookup (ks : list string) (b : Binding) : forall (m : gmap string Binding) k,
  fold_left (fun m key => <[key := b]> m) ks m !! k =
  if bool_decide (k ∈ ks) then Some b else m !! k.
Proof.
  induction ks as [|a ks IH]; intros m k; simpl.
  - reflexivity.
  - rewrite IH. destruct (decide (k = a)) as [->|Hne].
    + rewrite lookup_insert_eq. rewrite (bool_decide_true (a ∈ a :: ks)) by set_solver.
      destruct (bool_decide (a ∈ ks)); reflexivity.
    + rewrite lookup_insert_ne by congruence.
      case_bool_decide as H1; case_bool_decide as H2; try reflexivity; exfalso; set_solver.
Qed.

Lemma split_on_absent sep s :
  ~ In sep (list_ascii_of_string s) -> split_on sep s = [s].
Proof.
  induction s as [|c s IH]; intros Hn; simpl; [reflexivity|].
  destruct (ascii_dec c sep) as [->|_]; [exfalso; apply Hn; left; reflexivity|].
  rewrite IH; [reflexivity|]. intros H. apply Hn. right. exact H.
Qed.

(** C10: [bind(keys, action, description)] maps every comma-separated,
    stripped piece of [keys] to [Binding(action, description)], replacing
    any earlier binding of it, and leaves the other keys alone; a [keys]
    without a comma binds the one stripped key. *)
Theorem bind_keys (st : AppState) (keys action description : string) :
  (forall k, bindings (bind st keys action description) !! k =
     if bool_decide (k ∈ map strip (split_on comma keys))
     then Some (mkBinding action description) else bindings st !! k) /\
  (~ In comma (list_ascii_of_string keys) ->
   bindings (bind st keys action description) =
     <[strip keys := mkBinding action description]> (bindings st)).
Proof.
  split.
  - intros k. apply fold_insert_lookup.
  - intros Hn. simpl. unfold all_keys. rewrite (split_on_absent comma keys Hn).
    reflexivity.
Qed.

Lemma bind_keys_witness :
  bindings (bind (init_app 0) " q " "quit" "") = <[ "q"%string := mkBinding "quit" "" ]> ∅ /\
  bindings (bind quit_app "q" "bell" "") !! "q"%string = Some (mkBinding "bell" "").
Proof.
  split.
  - apply (bind_keys (init_app 0) " q " "quit" ""). simpl. intros [H|[H|[H|[]]]]; discriminate.
  - rewrite (proj1 (bind_keys quit_app "q" "bell" "")). reflexivity.
Defined.

End AppFacts.

(* ================================================================== *)
(** * Further properties of the layout engine *)

Module LayoutExtraFacts.
Import Geometry DockLayout DockLayoutFacts.

(** Where a placed region starts and ends along the direction in which its
    dock walks (downward for top, upward for bottom, rightward for left,
    leftward for right). *)
Definition lead (e : DockEdge) (r : Region) : Z :=
  match e with
  | Top => ry r | Bottom => ry r + rheight r | Left => rx r | Right => rx r + rwidth r
  end.

Definition trail (e : DockEdge) (r : Region) : Z :=
  match e with
  | Top => ry r + rheight r | Bottom => ry r | Left => rx r + rwidth r | Right => rx r
  end.

(** The regions follow one another without gap or overlap from [cur], each
    with a positive extent. *)
Fixpoint tiles (e : DockEdge) (cur : Z) (rs : list Region) : Prop :=
  match rs with
  | [] => True
  | r :: rs' => lead e r = cur /\ 0 < axis_extent e r /\ tiles e (trail e r) rs'
  end.

(** A region spans the whole cross axis of the dock's region. *)
Definition spans_cross (e : DockEdge) (x y width height : Z) (r : Region) : Prop :=
  match e with
  | Top | Bottom => rx r = x /\ rwidth r = width
  | Left | Right => ry r = y /\ rheight r = height
  end.

Lemma dock_loop_tiles e x y width height vis items : forall st,
  0 <= remaining st -> Forall (fun p => 0 <= p.2) items ->
  tiles e (render st) (map snd (dock_loop e x y width height vis st items).1) /\
  Forall (fun p => spans_cross e x y width height p.2)
         (dock_loop e x y width height vis st items).1 /\
  0 <= consumed e (dock_loop e x y width height vis st items).1 <= remaining st.
Proof.
  induction items as [|[w s] items IH]; intros st Hr Hs; simpl.
  - unfold consumed. simpl. repeat split; auto; lia.
  - apply Forall_cons in Hs as [Hs0 Hs]. simpl in Hs0.
    destruct (vis w); simpl; [|apply IH; assumption].
    destruct (Z.min (remaining st) s =? 0) eqn:Hz; simpl.
    + unfold consumed. simpl. repeat split; auto; lia.
    + apply Z.eqb_neq in Hz.
      destruct (place e x y width height (render st) (Z.min (remaining st) s))
        as [reg cur] eqn:Hp.
      destruct (IH (mkLoopState cur (Z.max 0 (remaining st - Z.min (remaining st) s))
                                (total st + Z.min (remaining st) s)))
        as [Ht [Hc Hb]]; [simpl; lia|exact Hs|].
      destruct (dock_loop e x y width height vis _ items) as [placed stf].
      simpl in *. unfold consumed in *. simpl.
      assert (Hreg : lead e reg = render st /\ trail e reg = cur /\
                     axis_extent e reg = Z.min (remaining st) s /\
                     spans_cross e x y width height reg).
      { destruct e; simpl in Hp; injection Hp as <- <-; simpl; repeat split; lia. }
      destruct Hreg as [Hl [Htr [Hax Hsc]]].
      split; [|split].
      * split; [exact Hl|]. split; [lia|]. rewrite Htr. exact Ht.
      * constructor; [exact Hsc|exact Hc].
      * rewrite Hax. lia.
Qed.

(** X1: with non-negative sizes from [ratio_resolve], the widgets a dock
    places get regions that start at the dock's edge of the layer's remaining
    region, follow one another in order without gap or overlap (each of
    positive size), span the region's whole cross axis, and together
    consume at most the region's extent along the dock's axis. *)
Theorem dock_regions_tile (rr : Z -> list DockOptions -> list Z)
    (vis : WidgetId -> bool) (opts : list DockOptions) (lr : Region)
    (layers : gmap Z Region) (dock : Dock) (placed : list (WidgetId * Region)) :
  let r := layer_get lr layers (z dock) in
  0 <= axis_extent (edge dock) r ->
  Forall (fun s => 0 <= s) (rr (axis_extent (edge dock) r) opts) ->
  (dock_core rr vis opts lr layers dock).1 = Some placed ->
  tiles (edge dock) (render (loop_init (edge dock) r)) (map snd placed) /\
  Forall (fun p => spans_cross (edge dock) (rx r) (ry r) (rwidth r) (rheight r) p.2) placed /\
  0 <= consumed (edge dock) placed <= axis_extent (edge dock) r.
Proof.
  intros r Hext Hsz. unfold dock_core. fold r.
  destruct (negb (region_truthy r)); [discriminate|].
  destruct (dock_loop _ _ _ _ _ _ _ _) as [pl st] eqn:Hl. simpl.
  intros [= <-].
  assert (Hpos : Forall (fun p => 0 <= p.2)
                   (combine (widgets dock) (rr (axis_extent (edge dock) r) opts))).
  { revert Hsz. generalize (rr (axis_extent (edge dock) r) opts), (widgets dock).
    intros sizes ws. revert sizes. induction ws as [|w ws IH]; intros [|s0 sizes] Hs;
      simpl; constructor; apply Forall_cons in Hs as [? ?]; auto. }
  assert (Hrem : 0 <= remaining (loop_init (edge dock) r))
    by (destruct (edge dock); simpl in *; lia).
  destruct (dock_loop_tiles (edge dock) (rx r) (ry r) (rwidth r) (rheight r) vis _
              (loop_init (edge dock) r) Hrem Hpos) as [Ht [Hc Hb]].
  rewrite Hl in Ht, Hc, Hb. simpl in *.
  split; [exact Ht|]. split; [exact Hc|].
  assert (remaining (loop_init (edge dock) r) = axis_extent (edge dock) r)
    by (destruct (edge dock); reflexivity).
  lia.
Qed.

Lemma dock_regions_tile_witness :
  (dock_core sizes_or_one (fun _ => true)
     [mkDockOptions (Some 3) 1 1; mkDockOptions (Some 4) 1 1]
     (mkRegion 0 0 80 24) ∅ (mkDock Top [1%nat; 2%nat] 0)).1 =
    Some [(1%nat, mkRegion 0 0 80 3); (2%nat, mkRegion 0 3 80 4)] /\
  tiles Top 0 [mkRegion 0 0 80 3; mkRegion 0 3 80 4].
Proof.
  split; [reflexivity|].
  exact (proj1 (dock_regions_tile sizes_or_one (fun _ => true)
     [mkDockOptions (Some 3) 1 1; mkDockOptions (Some 4) 1 1]
     (mkRegion 0 0 80 24) ∅ (mkDock Top [1%nat; 2%nat] 0)
     [(1%nat, mkRegion 0 0 80 3); (2%nat, mkRegion 0 3 80 4)]
     ltac:(apply Z.leb_le; vm_compute; reflexivity)
     ltac:(apply Forall_forall; intros s Hs; apply Z.leb_le; revert s Hs;
             apply Forall_forall; vm_compute; repeat constructor) eq_refl)).
Defined.

(** X2: an invisible widget changes nothing in its dock's walk: removing it
    from the dock gives the same placements and the same final cursor,
    remaining extent and total. *)
Theorem invisible_widget_skipped e x y width height (vis : WidgetId -> bool)
    (st : LoopState) (pre post : list (WidgetId * Z)) (w : WidgetId) (s : Z) :
  vis w = false ->
  dock_loop e x y width height vis st (pre ++ (w, s) :: post) =
  dock_loop e x y width height vis st (pre ++ post).
Proof.
  intros Hv. revert st. induction pre as [|[w' s'] pre IH]; intros st; simpl.
  - rewrite Hv. reflexivity.
  - destruct (vis w'); simpl; [|apply IH].
    destruct (Z.min (remaining st) s' =? 0); [reflexivity|].
    destruct (place _ _ _ _ _ _ _). rewrite IH. reflexivity.
Qed.

Lemma invisible_widget_skipped_witness :
  dock_loop Top 0 0 80 24 (fun w => negb (w =? 2)%nat) (mkLoopState 0 24 0)
    [(1%nat, 3); (2%nat, 5); (3%nat, 4)] =
  dock_loop Top 0 0 80 24 (fun w => negb (w =? 2)%nat) (mkLoopState 0 24 0)
    [(1%nat, 3); (3%nat, 4)].
Proof. apply (invisible_widget_skipped _ _ _ _ _ _ _ [(1%nat, 3)]). reflexivity. Defined.

(** X3: a dock places only visible widgets, each at most once per
    occurrence, and in the order the dock lists them: the placed widgets
    form a sub-sequence of the dock's visible widgets. *)
Theorem placed_visible_in_order e x y width height (vis : WidgetId -> bool)
    (st : LoopState) (items : list (WidgetId * Z)) :
  map fst (dock_loop e x y width height vis st items).1 `sublist_of`
  filter vis (map fst items).
Proof.
  revert st. induction items as [|[w s] items IH]; intros st; simpl; [constructor|].
  rewrite filter_cons. destruct (vis w) eqn:Hv; simpl.
  - destruct (Z.min (remaining st) s =? 0); simpl; [apply sublist_nil_l|].
    destruct (place _ _ _ _ _ _ _) as [reg cur].
    specialize (IH (mkLoopState cur (Z.max 0 (remaining st - Z.min (remaining st) s))
                                (total st + Z.min (remaining st) s))).
    destruct (dock_loop _ _ _ _ _ _ _ items) as [placed stf]. simpl in *.
    apply sublist_skip. exact IH.
  - apply IH.
Qed.

(** ** Offsets *)

Definition padd (p q : Point) : Point := mkPoint (px p + px q) (py p + py q).

(** A map entry moved by [d], its paint order kept. *)
Definition shift (d : Point) (mr : MapRegion) : MapRegion :=
  mkMapRegion (region_add (mr_region mr) d) (mr_order mr).

(** The result of a store computation, with [f] applied to its value. *)
Definition M_map {A B} (f : A -> B) (m : M A) : M B :=
  fun h => option_map (fun p => (f p.1, p.2)) (m h).

Section Shift.
Variable recur : list Dock -> Z -> Z -> Point -> M LayoutMap.
Variable d : Point.
Hypothesis recur_shift : forall ds w hgt o h,
  recur ds w hgt (padd o d) h = M_map (fmap (shift d)) (recur ds w hgt o) h.

Lemma add_widget_shift o (map : LayoutMap) w r order h :
  add_widget recur (padd o d) (shift d <$> map) w r order h =
  M_map (fmap (shift d)) (add_widget recur o map w r order) h.
Proof.
  unfold add_widget, M_map, mbind, M_bind, get_widget, mret, M_ret.
  set (R := region_add (region_add r o) (layout_offset (h w))).
  assert (HR : region_add (region_add r (padd o d)) (layout_offset (h w)) = region_add R d).
  { unfold R, region_add, padd. simpl. f_equal; lia. }
  rewrite HR. destruct (layout (h w)) as [sub|]; simpl.
  - change (origin (region_add R d)) with (padd (origin R) d).
    rewrite recur_shift. unfold M_map.
    destruct (recur sub _ _ (origin R) h) as [[sm h']|]; simpl;
      [|reflexivity].
    rewrite map_fmap_union, fmap_insert. reflexivity.
  - rewrite fmap_insert. reflexivity.
Qed.

Lemma add_all_shift o placed order : forall (map : LayoutMap) h,
  add_all recur (padd o d) (shift d <$> map) placed order h =
  M_map (fmap (shift d)) (add_all recur o map placed order) h.
Proof.
  induction placed as [|[w r] placed IH]; intros map h; simpl.
  - reflexivity.
  - unfold mbind, M_bind. rewrite add_widget_shift. unfold M_map.
    destruct (add_widget recur o map w r order h) as [[m h']|]; simpl; [|reflexivity].
    rewrite IH. reflexivity.
Qed.

Lemma layout_docks_shift rr o lr ds : forall index (map : LayoutMap) layers h,
  layout_docks rr recur (padd o d) lr index ds (shift d <$> map) layers h =
  M_map (fmap (shift d)) (layout_docks rr recur o lr index ds map layers) h.
Proof.
  induction ds as [|dock ds IH]; intros index map layers h; simpl; [reflexivity|].
  unfold M_map, mbind, M_bind, get_heap.
  destruct (mapM dock_options_of (widgets dock) h) as [[opts h1]|]; simpl; [|reflexivity].
  destruct (dock_core rr _ opts lr layers dock) as [[placed|] layers'].
  - rewrite add_all_shift. unfold M_map.
    destruct (add_all recur o map placed (z dock, index) h1) as [[m h2]|]; simpl;
      [|reflexivity].
    rewrite IH. reflexivity.
  - rewrite IH. reflexivity.
Qed.

End Shift.

(** X4: all coordinates are absolute: calling [generate_map] with an
    offset moved by [d] moves every region of the result, nested views'
    widgets included, by [d] and keeps every paint order. *)
Theorem generate_map_offset (rr : Z -> list DockOptions -> list Z) (fuel : nat) :
  forall (docks : list Dock) (width height : Z) (o d : Point) (h : Heap),
  generate_map rr fuel docks width height (padd o d) h =
  option_map (fun p => (shift d <$> p.1, p.2))
             (generate_map rr fuel docks width height o h).
Proof.
  induction fuel as [|fuel IH]; intros docks width height o d h; simpl; [reflexivity|].
  rewrite <- (fmap_empty (shift d)).
  apply (layout_docks_shift (generate_map rr fuel) d).
  intros ds w hgt o' h'. apply IH.
Qed.

(** ** A viewport without cells *)

Lemma mapM_total {A B} (f : A -> M B) :
  (forall a h, exists b, f a h = Some (b, h)) ->
  forall l h, exists bs, mapM f l h = Some (bs, h).
Proof.
  intros Hf l. induction l as [|a l IH]; intros h; simpl.
  - eexists. reflexivity.
  - unfold mbind, M_bind. destruct (Hf a h) as [b ->].
    destruct (IH h) as [bs ->]. eexists. reflexivity.
Qed.

Lemma mapM_dock_options_total ws h :
  exists opts, mapM dock_options_of ws h = Some (opts, h).
Proof.
  apply mapM_total. intros a h'. eexists. reflexivity.
Qed.

Lemma layout_docks_empty_region rr recur o lr ds :
  region_truthy lr = false ->
  forall index (map : LayoutMap) layers h,
  (forall k r, layers !! k = Some r -> r = lr) ->
  layout_docks rr recur o lr index ds map layers h = Some (map, h).
Proof.
  intros Hlr. induction ds as [|dock ds IH]; intros index map layers h Hl; simpl.
  - reflexivity.
  - unfold mbind, M_bind, get_heap.
    destruct (mapM_dock_options_total (widgets dock) h) as [opts Ho]. rewrite Ho.
    unfold dock_core, layer_get.
    assert (Hd : default lr (layers !! z dock) = lr).
    { destruct (layers !! z dock) eqn:E; simpl; [apply (Hl _ _ E) | reflexivity]. }
    rewrite Hd, Hlr. simpl. apply IH.
    intros k r. destruct (decide (k = z dock)) as [->|Hne].
    + rewrite lookup_insert_eq. congruence.
    + rewrite lookup_insert_ne by congruence. apply Hl.
Qed.

(** X5: when the width or the height of the layout region
    [Region(0, 0, width, height)] is 0, every dock hits the [continue] of
    "No space left" on its first read of [layers]: the map is empty, no
    widget is placed and no nested view is laid out. *)
Theorem generate_map_empty_viewport rr fuel docks width height offset (h : Heap) :
  width = 0 \/ height = 0 ->
  generate_map rr (S fuel) docks width height offset h = Some (∅, h).
Proof.
  intros Hz. simpl. apply layout_docks_empty_region.
  - unfold region_truthy. simpl.
    destruct Hz as [-> | ->]; [reflexivity | apply andb_false_r].
  - intros k r Hk. rewrite lookup_empty in Hk. discriminate.
Qed.

Lemma generate_map_empty_viewport_witness :
  generate_map sizes_or_one 3 example_docks 0 24 (mkPoint 0 0) example_heap
  = Some (∅, example_heap).
Proof.
  apply (generate_map_empty_viewport sizes_or_one 2 example_docks 0 24 (mkPoint 0 0) example_heap).
  left. reflexivity.
Defined.

End LayoutExtraFacts.

(* ================================================================== *)
(** * More properties of the orchestrator *)

Module AppExtraFacts.
Import App AppExtra.

(** ** Focus *)

(** The focus is never on a widget that cannot take it. *)
Definition focus_ok (st : AppState) : Prop :=
  match focused st with Some w => can_focus w = true | None => True end.

Lemma set_focus_focus_ok st w : focus_ok st -> focus_ok (set_focus st w).1.
Proof.
  unfold focus_ok, set_focus. intros H.
  destruct (decide (w = focused st)); [exact H|].
  destruct w as [w|]; simpl.
  - destruct (can_focus w) eqn:Hc; [|exact H].
    destruct (decide (focused st ≠ Some w)); simpl; [exact Hc | exact H].
  - destruct (focused st) eqn:E; simpl; [exact I | rewrite E; exact I].
Qed.

Lemma app_step_focus_ok raises st op : focus_ok st -> focus_ok (app_step raises st op).
Proof.
  intros H. destruct op as [v|w|w|w|k a d]; simpl.
  - unfold push_view, register, list_setitem. simpl.
    case_decide; exact H.
  - apply set_focus_focus_ok. exact H.
  - unfold set_mouse_over. repeat case_match; simplify_eq; exact H.
  - exact H.
  - exact H.
Qed.

(** X6: whatever operations an app runs from its initial state, the
    focused widget, if any, has [can_focus] set: [set_focus] ignores a
    widget that cannot be focused, and nothing else assigns [focused]. *)
Theorem focused_can_focus (raises : Node -> Event -> bool) (root : ViewId) (ops : list Op) :
  match focused (run_ops raises (init_app root) ops) with
  | Some w => can_focus w = true
  | None => True
  end.
Proof.
  change (focus_ok (run_ops raises (init_app root) ops)).
  unfold run_ops. generalize (init_app root) (I : focus_ok (init_app root)).
  intros st Hst. revert st Hst.
  induction ops as [|op ops IH]; intros st Hst; simpl; [exact Hst|].
  apply IH. apply app_step_focus_ok. exact Hst.
Qed.

Lemma set_focus_noop st w : w = focused st -> set_focus st w = (st, []).
Proof. intros E. unfold set_focus. rewrite decide_True by exact E. reflexivity. Qed.

Lemma set_focus_unfocusable st w : can_focus w = false -> set_focus st (Some w) = (st, []).
Proof.
  intros Hc. unfold set_focus. case_decide; [reflexivity|]. rewrite Hc. reflexivity.
Qed.

(** X7: [set_focus] is idempotent: calling it again with the same widget
    changes nothing and posts nothing. *)
Theorem set_focus_idempotent (st : AppState) (w : option AWidget) :
  set_focus (set_focus st w).1 w = ((set_focus st w).1, []).
Proof.
  destruct (decide (w = focused st)) as [E|Hne].
  - rewrite (set_focus_noop st w E). simpl. apply set_focus_noop. exact E.
  - destruct w as [w|].
    + destruct (can_focus w) eqn:Hc.
      * assert (Hn : focused st ≠ Some w) by congruence.
        assert (H1 : (set_focus st (Some w)).1 = set_focused st (Some w)).
        { unfold set_focus. rewrite decide_False by exact Hne. rewrite Hc.
          rewrite decide_True by exact Hn. reflexivity. }
        rewrite H1. apply set_focus_noop. reflexivity.
      * rewrite (set_focus_unfocusable st w Hc). simpl. apply set_focus_unfocusable. exact Hc.
    + destruct (focused st) as [f|] eqn:Ef; [|congruence].
      assert (H1 : (set_focus st None).1 = set_focused st None).
      { unfold set_focus. rewrite decide_False by congruence. rewrite Ef. reflexivity. }
      rewrite H1. apply set_focus_noop. reflexivity.
Qed.

(** ** Pointer *)

Lemma set_mouse_over_assigns raises st w : mouse_over (set_mouse_over raises st w).1.1 = w.
Proof.
  unfold set_mouse_over. destruct w as [w|].
  - case_decide as Hn;
      [|simpl; destruct (decide (mouse_over st = Some w)); [assumption | contradiction]].
    destruct (match mouse_over st with Some m => _ | None => _ end). reflexivity.
  - destruct (mouse_over st) eqn:E; [reflexivity | exact E].
Qed.

Lemma set_mouse_over_noop raises st w :
  mouse_over st = w -> set_mouse_over raises st w = (st, [], false).
Proof.
  intros <-. unfold set_mouse_over. destruct (mouse_over st) as [m|] eqn:E; [|reflexivity].
  rewrite decide_False by (intros H; apply H; reflexivity). reflexivity.
Qed.

(** X9: [set_mouse_over] always leaves [mouse_over] equal to its argument,
    and it is idempotent: once it has run, calling it again with the same
    widget delivers nothing, assigns nothing and cannot raise. *)
Theorem set_mouse_over_idempotent (raises : Node -> Event -> bool) (st : AppState)
    (w : option AWidget) :
  mouse_over (set_mouse_over raises st w).1.1 = w /\
  set_mouse_over raises (set_mouse_over raises st w).1.1 w =
    ((set_mouse_over raises st w).1.1, [], false).
Proof.
  split; [apply set_mouse_over_assigns|].
  apply set_mouse_over_noop. apply set_mouse_over_assigns.
Qed.

(** ** Events *)

(** X10: the focused widget is only ever sent key events whose key is not
    bound: a bound key, a pointer event or any other event never reaches
    it, and nothing is sent to a widget other than the focused one. *)
Theorem focused_gets_unbound_keys_only (st : AppState) (e : Event) (n : Node) (e' : Event) :
  Forward n e' ∈ (on_event st e).1 ->
  e' = e /\
  ((exists v, n = NView v /\ view st = Some v) \/
   (exists f k, n = NWidget f /\ focused st = Some f /\ e = Key k /\ bindings st !! k = None)).
Proof.
  unfold on_event. intros H. apply list_elem_of_In in H.
  destruct e as [k| | | | | | | | | | | | | |]; simpl in H;
    repeat case_match; simplify_eq; simpl in H;
    repeat destruct H as [H|H]; simplify_eq; try contradiction;
    split; try reflexivity; naive_solver.
Qed.

Lemma focused_gets_unbound_keys_only_witness :
  ~ Forward (NWidget (mkAWidget 1 true)) (Key "q")
      ∈ (on_event (bind (set_focused (init_app 0) (Some (mkAWidget 1 true)))
                        "q" "quit" "") (Key "q")).1.
Proof.
  intros H.
  destruct (focused_gets_unbound_keys_only _ _ _ _ H) as [_ [[v [Hn _]] | [f [k [_ [_ [Hk Hb]]]]]]].
  - discriminate.
  - injection Hk as <-. vm_compute in Hb. discriminate.
Defined.



(** ** Children *)

(** X11: [remove] undoes [register]: registering a view that is not a
    child and removing it again gives back the same state; removing it a
    second time raises [KeyError]. *)
Theorem register_remove_roundtrip (st : AppState) (v : ViewId) :
  v ∉ children st ->
  remove (register st v).1 v = Some st /\ remove st v = None.
Proof.
  intros Hv. unfold remove, register. simpl. split.
  - rewrite decide_True by set_solver.
    f_equal. destruct st as [vs c f m mc bs]. unfold set_children. simpl in *.
    f_equal. apply set_eq. intros x. set_solver.
  - rewrite decide_False by exact Hv. reflexivity.
Qed.

Lemma register_remove_roundtrip_witness :
  (3%nat ∉ children (init_app 0)) /\ remove (register (init_app 0) 3).1 3 = Some (init_app 0).
Proof.
  assert (H : 3%nat ∉ children (init_app 0)) by (simpl; set_solver).
  split; [exact H|]. exact (proj1 (register_remove_roundtrip (init_app 0) 3 H)).
Defined.






(** ** Refresh *)

Lemma emit_result fails o :
  emit fails o = ([o], match fails o with Some e => inl e | None => inr tt end).
Proof. unfold emit. destruct (fails o); reflexivity. Qed.

Lemma try_except_out_escape {A} (m : LO A) (handler : PyExc -> LO A) (e : PyExc) :
  (forall x, is_Exception x = true -> forall e', (handler x).2 <> inl e') ->
  (try_except_Exception_out m handler).2 = inl e -> is_Exception e = false.
Proof.
  intros Hh. unfold try_except_Exception_out. destruct m as [tr [e0|x]]; simpl.
  - destruct (is_Exception e0) eqn:He.
    + specialize (Hh e0 He e). destruct (handler e0) as [tr' r]. simpl in *. congruence.
    + intros [= <-]. exact He.
  - discriminate.
Qed.

(** X14: [refresh] lets no [Exception] escape, provided logging the
    failure does not itself raise: any exception that still leaves it is
    a [BaseException] outside [Exception] (such as [KeyboardInterrupt]). *)
Theorem refresh_contains_exceptions (fails : Out -> option PyExc) (closed : bool)
    (term_program : string) (st : AppState) (e : PyExc) :
  fails LogRefreshFailed = None ->
  (refresh fails closed term_program st).2 = inl e -> is_Exception e = false.
Proof.
  intros Hlog. unfold refresh. destruct closed; [discriminate|].
  apply try_except_out_escape. intros x _ e'. rewrite emit_result, Hlog. discriminate.
Qed.

Definition print_fails (o : Out) : option PyExc :=
  match o with PrintFrame _ => Some (mkPyExc 2 true) | _ => None end.

(** A print interrupted by [KeyboardInterrupt]. *)
Definition print_interrupted (o : Out) : option PyExc :=
  match o with PrintFrame _ => Some (mkPyExc 9 false) | _ => None end.

Lemma refresh_contains_exceptions_witness :
  print_interrupted LogRefreshFailed = None /\
  (refresh print_interrupted false "xterm" (init_app 0)).2 = inl (mkPyExc 9 false) /\
  is_Exception (mkPyExc 9 false) = false.
Proof.
  split; [reflexivity|]. split; [reflexivity|].
  apply (refresh_contains_exceptions print_interrupted false "xterm" (init_app 0)).
  - reflexivity.
  - reflexivity.
Defined.

(** X15: under [TERM_PROGRAM=Apple_Terminal] [refresh] never writes the
    synchronized-update escape sequences. *)
Theorem refresh_apple_terminal_no_sync (fails : Out -> option PyExc) (closed : bool)
    (st : AppState) :
  (WriteSyncBegin ∉ (refresh fails closed "Apple_Terminal" st).1) /\
  (WriteSyncEnd ∉ (refresh fails closed "Apple_Terminal" st).1).
Proof.
  unfold refresh, try_except_Exception_out, emit, raise, mbind, LO_bind, mret, LO_ret.
  simpl. repeat case_match; simplify_eq; simpl; split; set_solver.
Qed.

(** X17: a failure between the two escape sequences (an empty view stack,
    or a print that raises) leaves the synchronized update open: the begin
    sequence is written and the end sequence never is. *)
Theorem refresh_failure_leaves_sync_open (fails : Out -> option PyExc)
    (term_program : string) (st : AppState) :
  String.eqb term_program "Apple_Terminal" = false ->
  fails WriteSyncBegin = None ->
  (view st = None \/ exists v, view st = Some v /\ fails (PrintFrame v) <> None) ->
  (WriteSyncBegin ∈ (refresh fails false term_program st).1) /\
  (WriteSyncEnd ∉ (refresh fails false term_program st).1).
Proof.
  intros Ht Hb Hfail. unfold refresh. rewrite Ht.
  unfold try_except_Exception_out, emit, raise, mbind, LO_bind, mret, LO_ret. simpl.
  rewrite Hb. destruct Hfail as [Hv | [v [Hv Hp]]]; rewrite Hv; simpl;
    repeat case_match; simplify_eq; simpl; try congruence; split; set_solver.
Qed.

Lemma refresh_failure_leaves_sync_open_witness :
  refresh print_fails false "xterm" (init_app 3) =
    ([WriteSyncBegin; PrintFrame 3; LogRefreshFailed], inr tt) /\
  (WriteSyncEnd ∉ (refresh print_fails false "xterm" (init_app 3)).1).
Proof.
  split; [reflexivity|].
  apply (refresh_failure_leaves_sync_open print_fails "xterm" (init_app 3)).
  - reflexivity.
  - reflexivity.
  - right. exists 3%nat. split; [reflexivity | discriminate].
Defined.

End AppExtraFacts.
